(** * The blog index builder

    A shallow embedding of [getPosts] ([lib/getPosts]), the build-time
    routine that lists the blog directory, imports every entry's module and
    derives its slug, and of [getStaticProps] of the index page, its caller.
    Around it: the list of links of the [Index] component, the head and the
    theme of [Layout], the props of [ResponsiveImage], and the extension
    pattern of the MDX loader.

    - JavaScript strings are sequences of UTF-16 code units; a regular
      expression without the [u] flag matches code unit by code unit.
    - A promise that has settled is an [outcome]; a [throw] inside an [async]
      function is the rejection of the promise the function returns.
    - [Promise.all] keeps the values in index order and rejects with the
      reason of the first input promise to reject; which one is first is not
      fixed by the program, so it is a parameter (the schedule). *)

From Stdlib Require Import String Ascii.
From Stdlib Require Import List NArith Bool Arith Lia.
Import ListNotations.
Open Scope N_scope.

(** ** Strings *)

(** A JavaScript string: its UTF-16 code units. *)
Definition str := list N.

(** The code units of an ASCII literal. *)
Fixpoint lit (s : string) : str :=
  match s with
  | EmptyString => []
  | String a s' => N_of_ascii a :: lit s'
  end.

Fixpoint str_eqb (s t : str) : bool :=
  match s, t with
  | [], [] => true
  | a :: s', b :: t' => (a =? b) && str_eqb s' t'
  | _, _ => false
  end.

(** ** Regular expressions

    The fragment the program uses: a concatenation of atoms, without flags. *)

Inductive atom : Type :=
| Dot              (* [.]: any code unit except a line terminator *)
| Lit (c : N)      (* a literal code unit *)
| Eos.             (* [$]: the end of the input *)

Definition regex := list atom.

(** LF, CR, LINE SEPARATOR and PARAGRAPH SEPARATOR. *)
Definition isLineTerminator (c : N) : bool :=
  (c =? 10) || (c =? 13) || (c =? 8232) || (c =? 8233).

(** Match [re] at the head of [s]; the result is the input left after the
    match. *)
Fixpoint matchHere (re : regex) (s : str) : option str :=
  match re with
  | [] => Some s
  | Dot :: re' =>
      match s with
      | c :: s' => if isLineTerminator c then None else matchHere re' s'
      | [] => None
      end
  | Lit a :: re' =>
      match s with
      | c :: s' => if c =? a then matchHere re' s' else None
      | [] => None
      end
  | Eos :: re' =>
      match s with
      | [] => matchHere re' []
      | _ :: _ => None
      end
  end.

(** [s.replace(re, by)] for a regular expression without the [g] flag and a
    replacement without [$] patterns: the leftmost match, tried at every
    position up to the end of the input, is replaced; without a match the
    string is returned as it is. *)
Fixpoint replace (re : regex) (by_ : str) (s : str) : str :=
  match matchHere re s with
  | Some rest => by_ ++ rest
  | None =>
      match s with
      | [] => []
      | c :: s' => c :: replace re by_ s'
      end
  end.

(** [/.mdx$/], with the dot as the source has it. *)
Definition mdxRe : regex :=
  [Dot; Lit (N_of_ascii "m"); Lit (N_of_ascii "d"); Lit (N_of_ascii "x"); Eos].

(** The recognized extension. *)
Definition ext : str := Eval cbv in lit ".mdx".

(** [f.name.replace(/.mdx$/, '')]. *)
Definition slugOf (name : str) : str := replace mdxRe [] name.

(** ** Settled promises *)

Inductive errno : Type :=
| ENOENT     (* no such file or directory *)
| EACCES     (* permission denied *)
| ENOTDIR.   (* not a directory *)

Inductive error : Type :=
| FsError (code : errno)         (* thrown by [fs.readdirSync] *)
| ImportError (request : str).   (* the reason [import(request)] rejects with *)

Inductive outcome (A : Type) : Type :=
| Fulfilled (v : A)
| Rejected (e : error).

Arguments Fulfilled {A} v.
Arguments Rejected {A} e.

Definition ret {A : Type} (v : A) : outcome A := Fulfilled v.

(** [await]: go on with the value, or leave with the reason. *)
Definition bind {A B : Type} (c : outcome A) (k : A -> outcome B) : outcome B :=
  match c with
  | Fulfilled v => k v
  | Rejected e => Rejected e
  end.

Notation "x <- c ;; k" := (bind c (fun x => k))
  (at level 61, c at next level, right associativity).

(** The value a promise was fulfilled with, if it was. *)
Definition valueOf {A : Type} (o : outcome A) : option A :=
  match o with
  | Fulfilled v => Some v
  | Rejected _ => None
  end.

Definition isRejected {A : Type} (o : outcome A) : bool :=
  match o with
  | Fulfilled _ => false
  | Rejected _ => true
  end.

(** The reason of the first promise of [order] that rejected. *)
Fixpoint firstRejected {A : Type} (outs : list (outcome A)) (order : list nat)
  : option error :=
  match order with
  | [] => None
  | i :: order' =>
      match nth_error outs i with
      | Some (Rejected e) => Some e
      | _ => firstRejected outs order'
      end
  end.

(** The values in index order, or the reason of the rejected promise of the
    lowest index. *)
Fixpoint collect {A : Type} (outs : list (outcome A)) : outcome (list A) :=
  match outs with
  | [] => Fulfilled []
  | Rejected e :: _ => Rejected e
  | Fulfilled v :: outs' => vs <- collect outs' ;; ret (v :: vs)
  end.

(** [Promise.all(promises)], where the promises settle to [outs]: those that
    [sched] lists settle first, in that order, and the others after them in
    index order.  The first rejection settles the result; without one the
    result is the list of the values, by index. *)
Definition PromiseAll {A : Type} (outs : list (outcome A)) (sched : list nat)
  : outcome (list A) :=
  match firstRejected outs sched with
  | Some e => Rejected e
  | None => collect outs
  end.

(** ** The content store *)

(** What an [fs.Dirent] says its entry is. *)
Inductive FileType : Type :=
| RegularFile | Directory | SymbolicLink | BlockDevice | CharacterDevice
| FIFO | Socket.

Record Dirent : Type := { name : str; ftype : FileType }.

(** What is found at [path.join(process.cwd(), 'src', 'pages', 'blog')]. *)
Inductive FsNode : Type :=
| Missing                         (* nothing at that path *)
| Unreadable                      (* a directory the process may not read *)
| NotADirectory                   (* something else than a directory *)
| Dir (entries : list Dirent).    (* a directory, in enumeration order *)

(** [fs.readdirSync(path, { withFileTypes: true })]. *)
Definition readdirSync (n : FsNode) : outcome (list Dirent) :=
  match n with
  | Missing => Rejected (FsError ENOENT)
  | Unreadable => Rejected (FsError EACCES)
  | NotADirectory => Rejected (FsError ENOTDIR)
  | Dir entries => Fulfilled entries
  end.

Record Meta : Type := { title : str; date : str }.

(** A module namespace: its [meta] export, [None] when it has none. *)
Record Module : Type := { export_meta : option Meta }.

(** The blog directory and the modules that requests resolve to. *)
Record World : Type := {
  blogDir : FsNode;
  modules : str -> option Module
}.

(** [import(request)]. *)
Definition import (w : World) (request : str) : outcome Module :=
  match modules w request with
  | Some m => Fulfilled m
  | None => Rejected (ImportError request)
  end.

(** ** The index builder *)

(** An index entry; [meta] is [None] where the JavaScript value is
    [undefined]. *)
Record Post : Type := { meta : option Meta; slug : str }.

Definition blogPrefix : str := Eval cbv in lit "../pages/blog/".

(** [`../pages/blog/${f.name}`]. *)
Definition blogRequest (fname : str) : str := blogPrefix ++ fname.

(** The callback that [getPosts] maps over the listing. *)
Definition postOf (w : World) (f : Dirent) : outcome Post :=
  m <- import w (blogRequest (name f)) ;;
  let meta := export_meta m in
  let slug := replace mdxRe [] (name f) in
  ret {| meta := meta; slug := slug |}.

Definition getPosts (w : World) (sched : list nat) : outcome (list Post) :=
  dirFiles <- readdirSync (blogDir w) ;;
  PromiseAll (map (postOf w) dirFiles) sched.

Record Props : Type := { posts : list Post }.

(** [getStaticProps] of the index page. *)
Definition getStaticProps (w : World) (sched : list nat) : outcome Props :=
  posts <- getPosts w sched ;;
  ret {| posts := posts |}.

(** ** Vocabulary of the specification *)

(** The name ends in [suffix], as [s.endsWith(suffix)] tells. *)
Definition endsWith (s suffix : str) : bool :=
  (length suffix <=? length s)%nat &&
  str_eqb (skipn (length s - length suffix) s) suffix.

(** As [s.startsWith(prefix)]. *)
Fixpoint startsWith (s prefix : str) : bool :=
  match prefix, s with
  | [], _ => true
  | b :: prefix', a :: s' => (a =? b) && startsWith s' prefix'
  | _ :: _, [] => false
  end.

(** [t] occurs at some position of [s], as [s.includes(t)] tells. *)
Fixpoint includes (s t : str) : bool :=
  startsWith s t ||
  match s with
  | [] => false
  | _ :: s' => includes s' t
  end.

(** A valid Document: its module loads and exports [meta]. *)
Definition isValidDocument (w : World) (f : Dirent) : bool :=
  match modules w (blogRequest (name f)) with
  | Some {| export_meta := Some _ |} => true
  | _ => false
  end.

(** A Document without its metadata block: the module loads, without a
    [meta] export. *)
Definition lacksMetadata (w : World) (f : Dirent) : bool :=
  match modules w (blogRequest (name f)) with
  | Some {| export_meta := None |} => true
  | _ => false
  end.

(** The entry's import rejects. *)
Definition importFails (w : World) (f : Dirent) : bool :=
  match modules w (blogRequest (name f)) with
  | Some _ => false
  | None => true
  end.

(** The index entry of a directory entry whose module is [m]. *)
Definition entryOf (m : Module) (f : Dirent) : Post :=
  {| meta := export_meta m; slug := slugOf (name f) |}.

(** The entry [p] is the one [getPosts] builds for [f]. *)
Definition entryAt (w : World) (f : Dirent) (p : Post) : Prop :=
  exists m, modules w (blogRequest (name f)) = Some m /\ p = entryOf m f.

(** The same, for a valid Document: the entry carries its metadata. *)
Definition validEntryAt (w : World) (f : Dirent) (p : Post) : Prop :=
  exists mt,
    modules w (blogRequest (name f)) = Some {| export_meta := Some mt |} /\
    p = {| meta := Some mt; slug := slugOf (name f) |}.

(** The four code units that [/.mdx$/] removes: any one that is not a line
    terminator, then [mdx], at the very end. *)
Definition stripsSuffix (s : str) : bool :=
  match rev s with
  | x :: d :: m :: c :: _ =>
      (x =? 120) && (d =? 100) && (m =? 109) && negb (isLineTerminator c)
  | _ => false
  end.

(** A finite module table, for examples. *)
Fixpoint lookup (tbl : list (str * Module)) (request : str) : option Module :=
  match tbl with
  | [] => None
  | (r, m) :: tbl' => if str_eqb r request then Some m else lookup tbl' request
  end.

(** ** Example content stores *)

Definition file (s : string) : Dirent :=
  {| name := lit s; ftype := RegularFile |}.


Definition withMeta (t d : string) : Module :=
  {| export_meta := Some {| title := lit t; date := lit d |} |}.

Definition withoutMeta : Module := {| export_meta := None |}.

Definition entry (t d s : string) : Post :=
  {| meta := Some {| title := lit t; date := lit d |}; slug := lit s |}.

Definition helloModule : Module := withMeta "Hello" "2020-01-01T00:00:00.000Z".

Definition helloEntry : Post := entry "Hello" "2020-01-01T00:00:00.000Z" "hello".

(** Two posts, both with their metadata. *)
Definition blogWorld : World := {|
  blogDir := Dir [file "hello.mdx"; file "rust.mdx"];
  modules := lookup
    [(blogRequest (lit "hello.mdx"), helloModule);
     (blogRequest (lit "rust.mdx"), withMeta "Rust" "2021-06-01T00:00:00.000Z")]
|}.

(** A post whose module has no [meta] export. *)
Definition draftWorld : World := {|
  blogDir := Dir [file "hello.mdx"; file "draft.mdx"];
  modules := lookup
    [(blogRequest (lit "hello.mdx"), helloModule);
     (blogRequest (lit "draft.mdx"), withoutMeta)]
|}.

(** A file that no module can be loaded from. *)
Definition brokenWorld : World := {|
  blogDir := Dir [file "hello.mdx"; file "broken.mdx"];
  modules := lookup [(blogRequest (lit "hello.mdx"), helloModule)]
|}.


(** ** The index page *)

(** What a render returns, or the [TypeError] of reading property [prop] of
    [undefined]. *)
Inductive rendered (A : Type) : Type :=
| Rendered (v : A)
| TypeError (prop : str).

Arguments Rendered {A} v.
Arguments TypeError {A} prop.

(** One [<li>] of the list of posts: its [key], the [href] of its link, the
    title and the text of the date. *)
Record PostLink : Type := {
  linkKey : str;
  linkHref : str;
  linkTitle : str;
  linkDate : str
}.

Definition hrefPrefix : str := Eval cbv in lit "/blog/".

(** The callback that [Index] maps over [posts]; [toLocaleString] is
    [s => new Date(s).toLocaleString()] of the environment.  The first
    property read through [p.meta] is [title]. *)
Definition postLink (toLocaleString : str -> str) (p : Post)
  : rendered PostLink :=
  match meta p with
  | None => TypeError (lit "title")
  | Some mt =>
      Rendered {| linkKey := slug p;
                  linkHref := hrefPrefix ++ slug p;
                  linkTitle := title mt;
                  linkDate := toLocaleString (date mt) |}
  end.

(** [posts.map(callback)], where the callback may throw: the elements are
    visited in order and the first throw leaves the map. *)
Fixpoint mapRender {A B : Type} (f : A -> rendered B) (l : list A)
  : rendered (list B) :=
  match l with
  | [] => Rendered []
  | a :: l' =>
      match f a with
      | TypeError prop => TypeError prop
      | Rendered b =>
          match mapRender f l' with
          | TypeError prop => TypeError prop
          | Rendered bs => Rendered (b :: bs)
          end
      end
  end.

(** The list of links of the [Index] component. *)
Definition Index (toLocaleString : str -> str) (props : Props)
  : rendered (list PostLink) :=
  mapRender (postLink toLocaleString) (posts props).

Definition hasMeta (p : Post) : bool :=
  match meta p with
  | Some _ => true
  | None => false
  end.

(** ** Objects and props *)

Inductive value : Type :=
| VUndefined
| VNull
| VBoolean (b : bool)
| VString (s : str)
| VOpaque (id : N).   (* any other value, by identity *)

(** An object: its own enumerable properties. *)
Definition obj := str -> option value.

Definition emptyObj : obj := fun _ => None.

(** [{ ...o, k: v }]. *)
Definition setProp (k : str) (v : value) (o : obj) : obj :=
  fun k' => if str_eqb k k' then Some v else o k'.

(** [{ ...o, ...src }]; spreading [undefined] adds nothing. *)
Definition spread (o : obj) (src : option obj) : obj :=
  match src with
  | None => o
  | Some p => fun k => match p k with Some v => Some v | None => o k end
  end.

(** [o.k]. *)
Definition getProp (o : obj) (k : str) : value :=
  match o k with
  | Some v => v
  | None => VUndefined
  end.

(** ** The layout ([components/Layout.js]) *)

Definition kTitle : str := Eval cbv in lit "title".
Definition kDescription : str := Eval cbv in lit "description".

Definition defaultTitle : value := VString (lit "Alex Barlow").

Definition defaultDescription : value :=
  VString (lit "I'm Alex Barlow, a programmer based in UK. Creator of Lile and other things.").

(** [{ title: ..., description: ..., ...pageMeta }]. *)
Definition layoutMeta (pageMeta : option obj) : obj :=
  spread (setProp kDescription defaultDescription
            (setProp kTitle defaultTitle emptyObj))
         pageMeta.

Definition initialTheme : str := Eval cbv in lit "okaidia".

(** The values of the [<option>]s of the theme [<select>]. *)
Definition themeOptions : list str :=
  Eval cbv in [lit "okaidia"; lit "tomorrow"; lit "coy"; lit "funky"].

(** [`https://unpkg.com/prismjs@0.0.1/themes/prism-${theme}.css`]. *)
Definition themeHref (theme : str) : str :=
  (lit "https://unpkg.com/prismjs@0.0.1/themes/prism-")
    ++ theme ++ (lit ".css").

(** The [href]s of the [<link rel="preload">] tags, in their order. *)
Definition preloadHrefs : list str :=
  Eval cbv in
    [lit "https://unpkg.com/prismjs@0.0.1/themes/prism-tomorrow.css";
     lit "https://unpkg.com/prismjs@0.0.1/themes/prism-coy.css";
     lit "https://unpkg.com/prismjs@0.0.1/themes/prism-okaidia.css";
     lit "https://unpkg.com/prismjs@0.0.1/themes/prism-funky.css"].

(** What [Layout] puts in [<Head>] from [meta] and [theme]. *)
Record Head : Type := {
  headTitle : value;
  metaDescription : value;
  ogSiteName : value;
  ogDescription : value;
  ogTitle : value;
  twitterTitle : value;
  twitterDescription : value;
  preloads : list str;
  stylesheet : str
}.

Definition LayoutHead (theme : str) (pageMeta : option obj) : Head :=
  let meta := layoutMeta pageMeta in
  {| headTitle := getProp meta kTitle;
     metaDescription := getProp meta kDescription;
     ogSiteName := getProp meta kTitle;
     ogDescription := getProp meta kDescription;
     ogTitle := getProp meta kTitle;
     twitterTitle := getProp meta kTitle;
     twitterDescription := getProp meta kDescription;
     preloads := preloadHrefs;
     stylesheet := themeHref theme |}.

(** [onChange={(e) => setTheme(e.target.value)}]: the next theme. *)
Definition onChange (theme targetValue : str) : str := targetValue.

(** The theme after the changes [events], from [useState('okaidia')]. *)
Definition themeAfter (events : list str) : str :=
  fold_left onChange events initialTheme.

(** ** The application shell ([pages/_app.tsx]) *)

Definition kAlt : str := Eval cbv in lit "alt".
Definition kLayout : str := Eval cbv in lit "layout".

(** The attributes of
    [<Image alt={props.alt} layout="responsive" {...props} />]:
    [{ alt: props.alt, layout: "responsive", ...props }]. *)
Definition imageAttributes (props : obj) : obj :=
  spread (setProp kLayout (VString (lit "responsive"))
            (setProp kAlt (getProp props kAlt) emptyObj))
         (Some props).

(** The keys that the JSX runtime keeps for itself. *)
Definition reservedKeys : list str :=
  Eval cbv in [lit "key"; lit "ref"; lit "__self"; lit "__source"].

Definition isReservedKey (k : str) : bool := existsb (str_eqb k) reservedKeys.

(** The props of the element created from the attributes [config]: the
    runtime takes the reserved keys out and copies the others. *)
Definition elementProps (config : obj) : obj :=
  fun k => if isReservedKey k then None else config k.

(** The props of the [Image] element that [ResponsiveImage] returns. *)
Definition ResponsiveImage (props : obj) : obj :=
  elementProps (imageAttributes props).

(** ** The MDX loader pattern ([next.config.js]) *)

(** An atom, or an atom under [?]. *)
Inductive item : Type :=
| One (a : atom)
| Opt (a : atom).

Definition pattern := list item.

(** [re] matches at the head of [s]; an optional atom is tried first, then
    skipped. *)
Fixpoint matchItems (re : pattern) (s : str) : bool :=
  match re with
  | [] => true
  | One a :: re' =>
      match matchHere [a] s with
      | Some rest => matchItems re' rest
      | None => false
      end
  | Opt a :: re' =>
      match matchHere [a] s with
      | Some rest => matchItems re' rest || matchItems re' s
      | None => matchItems re' s
      end
  end.

(** [re.test(s)]: a match at some position, up to the end of the input. *)
Fixpoint test (re : pattern) (s : str) : bool :=
  matchItems re s ||
  match s with
  | [] => false
  | _ :: s' => test re s'
  end.

(** [/\.mdx?$/], the [extension] option. *)
Definition mdxExtension : pattern :=
  [One (Lit 46); One (Lit (N_of_ascii "m")); One (Lit (N_of_ascii "d"));
   Opt (Lit (N_of_ascii "x")); One Eos].

Definition extMd : str := Eval cbv in lit ".md".

(** ** Further examples *)

(** The date text of the examples: the string itself. *)
Definition rawDate (s : str) : str := s.

(** The props of a page that sets its title only. *)
Definition titleOnly : obj :=
  setProp kTitle (VString (lit "Posts")) emptyObj.

(** The props of an image with a source and a layout of its own. *)
Definition fixedImage : obj :=
  setProp (lit "src") (VString (lit "/assets/trace.png"))
    (setProp kLayout (VString (lit "fixed")) emptyObj).

(** The same, with a [key] and a [ref]. *)
Definition keyedImage : obj :=
  setProp (lit "key") (VString (lit "k1"))
    (setProp (lit "ref") (VOpaque 1) fixedImage).

(** Two files that no module can be loaded from. *)
Definition unloadableWorld : World := {|
  blogDir := Dir [file "a.mdx"; file "b.mdx"];
  modules := lookup []
|}.

(** [blogWorld] with one more module, which the directory does not list. *)
Definition widerWorld : World := {|
  blogDir := blogDir blogWorld;
  modules := lookup
    [(blogRequest (lit "hello.mdx"), helloModule);
     (blogRequest (lit "rust.mdx"), withMeta "Rust" "2021-06-01T00:00:00.000Z");
     (blogRequest (lit "unlisted.mdx"), withoutMeta)]
|}.

(** * Properties *)

(** ** Strings *)

Lemma str_eqb_eq (s t : str) : str_eqb s t = true <-> s = t.
Proof.
  revert t; induction s as [|a s IH]; intros [|b t]; simpl;
    try (split; [discriminate | congruence]); try tauto.
  rewrite andb_true_iff, N.eqb_eq, IH.
  split; [intros [-> ->]; reflexivity | intros [= -> ->]; auto].
Qed.

Lemma str_eqb_refl (s : str) : str_eqb s s = true.
Proof. apply str_eqb_eq; reflexivity. Qed.

Lemma endsWith_split (s suffix : str) :
  endsWith s suffix = true ->
  s = firstn (length s - length suffix) s ++ suffix.
Proof.
  unfold endsWith; rewrite andb_true_iff, str_eqb_eq; intros [_ H].
  rewrite <- (firstn_skipn (length s - length suffix) s) at 1.
  f_equal; exact H.
Qed.

Lemma endsWith_app (p suffix : str) : endsWith (p ++ suffix) suffix = true.
Proof.
  unfold endsWith; rewrite length_app, andb_true_iff; split.
  - apply Nat.leb_le; lia.
  - replace (length p + length suffix - length suffix)%nat
      with (length p + 0)%nat by lia.
    rewrite skipn_app, Nat.add_0_r, skipn_all.
    replace (length p - length p)%nat with 0%nat by lia.
    apply str_eqb_refl.
Qed.

Lemma isLineTerminator_dot : isLineTerminator 46 = false.
Proof. reflexivity. Qed.

(** ** The regular expression *)

(** [/.mdx$/] matches at a position exactly when four code units are left
    there: one that is no line terminator, then [mdx]. *)
Lemma matchHere_mdxRe (s r : str) :
  matchHere mdxRe s = Some r ->
  r = [] /\ exists c, s = [c; 109; 100; 120] /\ isLineTerminator c = false.
Proof.
  unfold mdxRe; destruct s as [|c s]; simpl; [discriminate|].
  destruct (isLineTerminator c) eqn:Hc; [discriminate|].
  destruct s as [|m [|d [|x [|y s]]]]; simpl; try discriminate;
    repeat match goal with
           | |- context [N.eqb ?a ?b] => destruct (N.eqb_spec a b); subst
           end; try discriminate.
  intros [= <-]; split; [reflexivity | exists c; auto].
Qed.

Lemma matchHere_mdxRe_four (c : N) :
  isLineTerminator c = false -> matchHere mdxRe [c; 109; 100; 120] = Some [].
Proof. intros Hc; unfold mdxRe; simpl; rewrite Hc; reflexivity. Qed.

Lemma slugOf_cons (c : N) (s : str) :
  matchHere mdxRe (c :: s) = None -> slugOf (c :: s) = c :: slugOf s.
Proof. unfold slugOf; cbn [replace]; intros ->; reflexivity. Qed.

(** The match, when there is one, removes the last four code units. *)
Lemma slugOf_strip (p : str) (c : N) :
  isLineTerminator c = false -> slugOf (p ++ [c; 109; 100; 120]) = p.
Proof.
  intros Hc; induction p as [|a p IH].
  - unfold slugOf; simpl app.
    destruct [c; 109; 100; 120] eqn:E; [discriminate|]; rewrite <- E.
    cbn [replace]; rewrite (matchHere_mdxRe_four c Hc); reflexivity.
  - rewrite <- app_comm_cons, slugOf_cons, IH; [reflexivity|].
    destruct (matchHere mdxRe (a :: p ++ [c; 109; 100; 120])) eqn:E;
      [|reflexivity].
    apply matchHere_mdxRe in E; destruct E as [_ [c' [E _]]].
    apply (f_equal (@length N)) in E; simpl in E; rewrite length_app in E.
    simpl in E; lia.
Qed.

Lemma stripsSuffix_iff (s : str) :
  stripsSuffix s = true <->
  exists p c, s = p ++ [c; 109; 100; 120] /\ isLineTerminator c = false.
Proof.
  unfold stripsSuffix; split.
  - destruct (rev s) as [|x [|d [|m [|c r]]]] eqn:E; try discriminate.
    rewrite !andb_true_iff, !N.eqb_eq, negb_true_iff.
    intros [[[-> ->] ->] Hc].
    exists (rev r), c; split; [|exact Hc].
    rewrite <- (rev_involutive s), E; simpl; rewrite <- !app_assoc.
    reflexivity.
  - intros [p [c [-> Hc]]]; rewrite rev_app_distr; simpl; rewrite Hc.
    reflexivity.
Qed.

(** Without a match the name is returned as it is. *)
Lemma slugOf_keep (s : str) : stripsSuffix s = false -> slugOf s = s.
Proof.
  induction s as [|a s IH]; intros Hs; [reflexivity|].
  destruct (matchHere mdxRe (a :: s)) as [r|] eqn:E.
  - apply matchHere_mdxRe in E; destruct E as [_ [c [E Hc]]].
    assert (stripsSuffix (a :: s) = true); [|congruence].
    apply stripsSuffix_iff; exists [], c; auto.
  - rewrite (slugOf_cons _ _ E), IH; [reflexivity|].
    destruct (stripsSuffix s) eqn:Hs'; [|reflexivity].
    apply stripsSuffix_iff in Hs'; destruct Hs' as [p [c [-> Hc]]].
    assert (stripsSuffix (a :: p ++ [c; 109; 100; 120]) = true);
      [|congruence].
    apply stripsSuffix_iff; exists (a :: p), c; auto.
Qed.

(** What [slugOf] computes, in closed form. *)
Lemma slugOf_spec (s : str) :
  slugOf s = if stripsSuffix s then firstn (length s - 4) s else s.
Proof.
  destruct (stripsSuffix s) eqn:Hs; [|apply slugOf_keep; exact Hs].
  apply stripsSuffix_iff in Hs; destruct Hs as [p [c [-> Hc]]].
  rewrite (slugOf_strip p c Hc), length_app; simpl length.
  replace (length p + 4 - 4)%nat with (length p + 0)%nat by lia.
  rewrite firstn_app_2; simpl; rewrite app_nil_r; reflexivity.
Qed.

(** ** [Promise.all] *)

Section PromiseAll.
Context {A : Type}.
Implicit Types (outs : list (outcome A)) (vs : list A) (order : list nat).

Lemma firstRejected_In outs order (e : error) :
  firstRejected outs order = Some e -> In (Rejected e) outs.
Proof.
  induction order as [|i order IH]; simpl; [discriminate|].
  destruct (nth_error outs i) as [[v|e']|] eqn:E; auto.
  intros [= ->]; eapply nth_error_In; eassumption.
Qed.

Lemma firstRejected_fulfilled vs order :
  firstRejected (map Fulfilled vs) order = None.
Proof.
  induction order as [|i order IH]; simpl; [reflexivity|].
  rewrite nth_error_map; destruct (nth_error vs i); exact IH.
Qed.

Lemma collect_fulfilled vs : collect (map Fulfilled vs) = Fulfilled vs.
Proof. induction vs as [|v vs IH]; simpl; [|rewrite IH]; reflexivity. Qed.

Lemma collect_inv outs vs :
  collect outs = Fulfilled vs -> outs = map Fulfilled vs.
Proof.
  revert vs; induction outs as [|[v|e] outs IH]; simpl; intros vs.
  - intros [= <-]; reflexivity.
  - destruct (collect outs) as [vs'|e]; simpl; [|discriminate].
    intros [= <-]; simpl; f_equal; apply IH; reflexivity.
  - discriminate.
Qed.

Lemma collect_rejected outs (e : error) :
  collect outs = Rejected e -> In (Rejected e) outs.
Proof.
  induction outs as [|[v|e'] outs IH]; simpl.
  - discriminate.
  - destruct (collect outs) as [vs'|e'']; simpl; [discriminate|].
    intros [= ->]; right; apply IH; reflexivity.
  - intros [= ->]; left; reflexivity.
Qed.

(** The result is fulfilled exactly when every input is, with the values
    by index, whatever the schedule. *)
Lemma PromiseAll_fulfilled outs sched vs :
  PromiseAll outs sched = Fulfilled vs <-> outs = map Fulfilled vs.
Proof.
  unfold PromiseAll; split.
  - destruct (firstRejected outs sched); [discriminate | apply collect_inv].
  - intros ->; rewrite firstRejected_fulfilled; apply collect_fulfilled.
Qed.

(** A rejection is the rejection of one of the inputs. *)
Lemma PromiseAll_rejected outs sched (e : error) :
  PromiseAll outs sched = Rejected e -> In (Rejected e) outs.
Proof.
  unfold PromiseAll; destruct (firstRejected outs sched) as [e'|] eqn:E.
  - intros [= <-]; eapply firstRejected_In; eassumption.
  - apply collect_rejected.
Qed.

(** The values do not depend on the schedule. *)
Lemma PromiseAll_valueOf outs sched sched' :
  valueOf (PromiseAll outs sched) = valueOf (PromiseAll outs sched').
Proof.
  destruct (PromiseAll outs sched) as [vs|e] eqn:E.
  - apply PromiseAll_fulfilled in E.
    apply (PromiseAll_fulfilled outs sched') in E; rewrite E; reflexivity.
  - destruct (PromiseAll outs sched') as [vs'|e'] eqn:E'; [|reflexivity].
    apply PromiseAll_fulfilled in E'.
    apply (PromiseAll_fulfilled outs sched) in E'; congruence.
Qed.
End PromiseAll.

(** ** The per-entry callback *)

Lemma postOf_loaded (w : World) (f : Dirent) (m : Module) :
  modules w (blogRequest (name f)) = Some m ->
  postOf w f = Fulfilled (entryOf m f).
Proof. unfold postOf, import; intros ->; reflexivity. Qed.

Lemma postOf_failed (w : World) (f : Dirent) :
  modules w (blogRequest (name f)) = None ->
  postOf w f = Rejected (ImportError (blogRequest (name f))).
Proof. unfold postOf, import; intros ->; reflexivity. Qed.

Lemma postOf_fulfilled_inv (w : World) (f : Dirent) (p : Post) :
  postOf w f = Fulfilled p ->
  exists m, modules w (blogRequest (name f)) = Some m /\ p = entryOf m f.
Proof.
  destruct (modules w (blogRequest (name f))) as [m|] eqn:E.
  - rewrite (postOf_loaded _ _ _ E); intros [= <-]; eauto.
  - rewrite (postOf_failed _ _ E); discriminate.
Qed.

Lemma postOf_rejected_inv (w : World) (f : Dirent) (e : error) :
  postOf w f = Rejected e ->
  importFails w f = true /\ e = ImportError (blogRequest (name f)).
Proof.
  unfold importFails.
  destruct (modules w (blogRequest (name f))) as [m|] eqn:E.
  - rewrite (postOf_loaded _ _ _ E); discriminate.
  - rewrite (postOf_failed _ _ E); intros [= <-]; auto.
Qed.



Lemma map_postOf_fulfilled (w : World) (dirFiles : list Dirent)
    (ps : list Post) :
  map (postOf w) dirFiles = map Fulfilled ps <->
  Forall2 (entryAt w) dirFiles ps.
Proof.
  split.
  - revert ps; induction dirFiles as [|f l IH]; intros [|p ps]; simpl;
      try discriminate; [constructor|].
    intros [= Hf Hl]; constructor; [|apply IH; exact Hl].
    apply postOf_fulfilled_inv; exact Hf.
  - induction 1 as [|f p l ps [m [Hm ->]] _ IH]; simpl; [reflexivity|].
    rewrite (postOf_loaded _ _ _ Hm), IH; reflexivity.
Qed.

(** ** [getPosts] *)

Lemma getPosts_Dir (w : World) (sched : list nat) (dirFiles : list Dirent) :
  blogDir w = Dir dirFiles ->
  getPosts w sched = PromiseAll (map (postOf w) dirFiles) sched.
Proof. unfold getPosts; intros ->; reflexivity. Qed.

Lemma getPosts_fulfilled_inv (w : World) (sched : list nat) (ps : list Post) :
  getPosts w sched = Fulfilled ps -> exists dirFiles, blogDir w = Dir dirFiles.
Proof.
  unfold getPosts; destruct (blogDir w); simpl; try discriminate; eauto.
Qed.

Lemma getPosts_fulfilled (w : World) (sched : list nat)
    (dirFiles : list Dirent) (ps : list Post) :
  blogDir w = Dir dirFiles ->
  getPosts w sched = Fulfilled ps <-> Forall2 (entryAt w) dirFiles ps.
Proof.
  intros Hd; rewrite (getPosts_Dir _ _ _ Hd), PromiseAll_fulfilled.
  apply map_postOf_fulfilled.
Qed.

Lemma Forall2_entryAt_total (w : World) (dirFiles : list Dirent) :
  existsb (importFails w) dirFiles = false ->
  exists ps, Forall2 (entryAt w) dirFiles ps.
Proof.
  induction dirFiles as [|f l IH]; simpl; [exists []; constructor|].
  rewrite orb_false_iff; unfold importFails at 1; intros [Hf Hl].
  destruct (IH Hl) as [ps Hps].
  destruct (modules w (blogRequest (name f))) as [m|] eqn:E; [|discriminate].
  exists (entryOf m f :: ps); constructor; [exists m; auto | exact Hps].
Qed.

(** ** The slug *)

(** The slug is the name, or the name without its last four code units. *)
Lemma slugOf_prefix (fname : str) :
  exists rest,
    fname = slugOf fname ++ rest /\ (rest = [] \/ length rest = 4%nat).
Proof.
  rewrite slugOf_spec; destruct (stripsSuffix fname) eqn:E.
  - apply stripsSuffix_iff in E; destruct E as [p [c [-> _]]].
    exists [c; 109; 100; 120]; split; [|right; reflexivity].
    rewrite length_app; simpl length.
    replace (length p + 4 - 4)%nat with (length p + 0)%nat by lia.
    rewrite firstn_app_2; simpl; rewrite app_nil_r; reflexivity.
  - exists []; split; [rewrite app_nil_r; reflexivity | left; reflexivity].
Qed.

(** A name that ends in the extension twice loses one copy of it. *)
Lemma slugOf_double_suffix (p : str) : slugOf (p ++ ext ++ ext) = p ++ ext.
Proof.
  rewrite app_assoc; apply (slugOf_strip (p ++ ext) 46); reflexivity.
Qed.

(** A name that does not end in [mdx] is its own slug. *)
Lemma slugOf_keep_no_mdx (fname : str) :
  endsWith fname [109; 100; 120] = false -> slugOf fname = fname.
Proof.
  intros H; apply slugOf_keep.
  destruct (stripsSuffix fname) eqn:E; [|reflexivity].
  apply stripsSuffix_iff in E; destruct E as [p [c [-> _]]].
  change (p ++ [c; 109; 100; 120]) with (p ++ [c] ++ [109; 100; 120]) in H.
  rewrite app_assoc, endsWith_app in H; discriminate.
Qed.

Example slugOf_inner_suffix : slugOf (lit "a.mdx.txt") = lit "a.mdx.txt".
Proof. reflexivity. Qed.

Example slugOf_two_suffixes : slugOf (lit "p.mdx.mdx") = lit "p.mdx".
Proof. reflexivity. Qed.

(** C3. For every file name that ends in the extension [.mdx], the slug is
    the name without its last four code units, and the slug followed by the
    extension is the name again. *)
Theorem slugOf_roundtrip (fname : str) :
  endsWith fname ext = true ->
  slugOf fname = firstn (length fname - length ext) fname /\
  slugOf fname ++ ext = fname.
Proof.
  intros H; apply endsWith_split in H.
  set (p := firstn (length fname - length ext) fname) in *.
  assert (Hs : slugOf fname = p).
  { rewrite H; apply (slugOf_strip p 46); reflexivity. }
  split; [exact Hs | rewrite Hs; symmetry; exact H].
Qed.

Lemma slugOf_roundtrip_witness :
  endsWith (lit "hello.mdx") ext = true /\
  slugOf (lit "hello.mdx") = lit "hello" /\
  slugOf (lit "hello.mdx") ++ ext = lit "hello.mdx".
Proof.
  split; [reflexivity|].
  apply (slugOf_roundtrip (lit "hello.mdx")); reflexivity.
Defined.

(** C4. The name [notes-mdx] does not end in the extension [.mdx], and its
    slug is [notes]: the unescaped dot of [/.mdx$/] takes the hyphen for the
    dot of the extension, so the name does not pass through unchanged. *)
Theorem slugOf_unescaped_dot :
  endsWith (lit "notes-mdx") ext = false /\
  slugOf (lit "notes-mdx") = lit "notes" /\
  slugOf (lit "notes-mdx") <> lit "notes-mdx".
Proof. split; [reflexivity | split; [reflexivity | discriminate]]. Qed.

(** C10. The name [a.mdx-mdx] holds the extension [.mdx] in a position that
    is not the last one only, and its slug is [a.mdx]: four code units are
    removed from a name that does not end in the extension. *)
Theorem slugOf_inner_suffix_stripped :
  includes (lit "a.mdx-mdx") ext = true /\
  endsWith (lit "a.mdx-mdx") ext = false /\
  slugOf (lit "a.mdx-mdx") = lit "a.mdx" /\
  slugOf (lit "a.mdx-mdx") <> lit "a.mdx-mdx".
Proof. do 3 (split; [reflexivity|]); discriminate. Qed.

(** ** The index *)

Lemma validEntryAt_entryAt (w : World) (f : Dirent) (p : Post) :
  validEntryAt w f p -> entryAt w f p.
Proof. intros [mt [Hm ->]]; eexists; split; [exact Hm | reflexivity]. Qed.

Lemma Forall2_validEntryAt_total (w : World) (dirFiles : list Dirent) :
  forallb (isValidDocument w) dirFiles = true ->
  exists ps, Forall2 (validEntryAt w) dirFiles ps.
Proof.
  induction dirFiles as [|f l IH]; simpl; [exists []; constructor|].
  rewrite andb_true_iff; unfold isValidDocument at 1; intros [Hf Hl].
  destruct (IH Hl) as [ps Hps].
  destruct (modules w (blogRequest (name f))) as [[[mt|]]|] eqn:E;
    try discriminate.
  exists ({| meta := Some mt; slug := slugOf (name f) |} :: ps).
  constructor; [exists mt; auto | exact Hps].
Qed.

Lemma Forall2_entryAt_loads (w : World) (dirFiles : list Dirent)
    (ps : list Post) :
  Forall2 (entryAt w) dirFiles ps -> existsb (importFails w) dirFiles = false.
Proof.
  induction 1 as [|f p l ps [m [Hm _]] _ IH]; simpl; [reflexivity|].
  unfold importFails at 1; rewrite Hm, IH; reflexivity.
Qed.

Lemma Forall2_entryAt_slugs (w : World) (dirFiles : list Dirent)
    (ps : list Post) :
  Forall2 (entryAt w) dirFiles ps ->
  map slug ps = map (fun f => slugOf (name f)) dirFiles.
Proof.
  induction 1 as [|f p l ps [m [_ ->]] _ IH]; simpl; [|rewrite IH];
    reflexivity.
Qed.

(** The example of the specification: [hello.mdx] with its metadata. *)
Example getPosts_hello (mods : str -> option Module) (sched : list nat) :
  mods (blogRequest (lit "hello.mdx")) = Some helloModule ->
  getPosts {| blogDir := Dir [file "hello.mdx"]; modules := mods |} sched =
  Fulfilled [helloEntry].
Proof.
  intros H; apply (getPosts_fulfilled _ _ [file "hello.mdx"]);
    [reflexivity|].
  constructor; [|constructor]; exists helloModule; split; [exact H|].
  reflexivity.
Qed.

(** C1. When the blog directory lists N entries that are all valid
    Documents, [getPosts] is fulfilled with exactly N index entries, the
    [{meta, slug}] record of each directory entry in turn. *)
Theorem getPosts_count (w : World) (sched : list nat)
    (dirFiles : list Dirent) :
  blogDir w = Dir dirFiles ->
  forallb (isValidDocument w) dirFiles = true ->
  exists ps,
    getPosts w sched = Fulfilled ps /\
    length ps = length dirFiles /\
    Forall2 (validEntryAt w) dirFiles ps.
Proof.
  intros Hd Hv; destruct (Forall2_validEntryAt_total _ _ Hv) as [ps Hps].
  exists ps; split; [|split; [|exact Hps]].
  - apply (getPosts_fulfilled _ _ _ _ Hd).
    eapply Forall2_impl; [|exact Hps]; apply validEntryAt_entryAt.
  - symmetry; eapply Forall2_length; exact Hps.
Qed.

Lemma getPosts_count_witness :
  blogDir blogWorld = Dir [file "hello.mdx"; file "rust.mdx"] /\
  forallb (isValidDocument blogWorld) [file "hello.mdx"; file "rust.mdx"]
    = true /\
  exists ps,
    getPosts blogWorld [1%nat; 0%nat] = Fulfilled ps /\
    length ps = 2%nat /\
    Forall2 (validEntryAt blogWorld) [file "hello.mdx"; file "rust.mdx"] ps.
Proof.
  split; [reflexivity|]; split; [reflexivity|].
  apply (getPosts_count blogWorld [1%nat; 0%nat]
           [file "hello.mdx"; file "rust.mdx"]); reflexivity.
Defined.

(** C2, as stated, fails: [draft.mdx] loads without a [meta] export, and
    [getPosts] is fulfilled, with an entry for it whose [meta] is
    [undefined]; nothing is rejected, and [getStaticProps] is fulfilled
    too. *)
Lemma getPosts_missing_metadata_fulfils :
  In (file "draft.mdx") [file "hello.mdx"; file "draft.mdx"] /\
  lacksMetadata draftWorld (file "draft.mdx") = true /\
  getPosts draftWorld [] =
    Fulfilled [helloEntry; {| meta := None; slug := lit "draft" |}] /\
  getPosts draftWorld [1%nat; 0%nat] =
    Fulfilled [helloEntry; {| meta := None; slug := lit "draft" |}] /\
  isRejected (getStaticProps draftWorld []) = false.
Proof.
  split; [right; left; reflexivity|].
  do 3 (split; [reflexivity|]); reflexivity.
Qed.

(** C2, amended. When the import of some directory entry rejects,
    [getPosts] rejects with the reason that the import of one such entry
    rejected with, whatever it is, and so does [getStaticProps]: no index
    entry is returned.  When every import loads, [getPosts] is fulfilled,
    and the entry of a Document without metadata block has [meta]
    [undefined]. *)
Theorem getPosts_import_failure (w : World) (sched : list nat)
    (dirFiles : list Dirent) :
  blogDir w = Dir dirFiles ->
  if existsb (importFails w) dirFiles
  then exists f e,
         In f dirFiles /\
         import w (blogRequest (name f)) = Rejected e /\
         getPosts w sched = Rejected e /\
         getStaticProps w sched = Rejected e
  else exists ps,
         getPosts w sched = Fulfilled ps /\
         Forall2 (fun f p => entryAt w f p /\
                             (meta p = None <-> lacksMetadata w f = true))
                 dirFiles ps.
Proof.
  intros Hd; destruct (existsb (importFails w) dirFiles) eqn:Hx.
  - destruct (getPosts w sched) as [ps|e] eqn:Hg.
    + apply (getPosts_fulfilled _ _ _ _ Hd), Forall2_entryAt_loads in Hg.
      congruence.
    + assert (Hs : getStaticProps w sched = Rejected e)
        by (unfold getStaticProps; rewrite Hg; reflexivity).
      rewrite (getPosts_Dir _ _ _ Hd) in Hg.
      apply PromiseAll_rejected, in_map_iff in Hg.
      destruct Hg as [f [Hf Hin]].
      exists f, e; repeat split; auto.
      unfold postOf in Hf.
      destruct (import w (blogRequest (name f))) as [m|e'] eqn:Hi;
        simpl in Hf; [discriminate | congruence].
  - destruct (Forall2_entryAt_total _ _ Hx) as [ps Hps].
    exists ps; split; [apply (getPosts_fulfilled _ _ _ _ Hd); exact Hps|].
    eapply Forall2_impl; [|exact Hps].
    intros f p [m [Hm ->]]; split; [exists m; auto|].
    unfold lacksMetadata; rewrite Hm; destruct m as [[mt|]]; simpl;
      split; intros; try discriminate; reflexivity.
Qed.

Lemma getPosts_import_failure_witness :
  blogDir brokenWorld = Dir [file "hello.mdx"; file "broken.mdx"] /\
  exists f e,
    In f [file "hello.mdx"; file "broken.mdx"] /\
    import brokenWorld (blogRequest (name f)) = Rejected e /\
    getPosts brokenWorld [] = Rejected e /\
    getStaticProps brokenWorld [] = Rejected e.
Proof.
  split; [reflexivity|].
  apply (getPosts_import_failure brokenWorld []
           [file "hello.mdx"; file "broken.mdx"]); reflexivity.
Defined.




(** C6. Whatever the order in which the imports settle, the index entries
    that [getPosts] is fulfilled with are those of the directory entries in
    the order of the listing, position by position: nothing is sorted and
    nothing is reordered. *)
Theorem getPosts_order (w : World) (sched : list nat) (ps : list Post) :
  getPosts w sched = Fulfilled ps ->
  exists dirFiles,
    blogDir w = Dir dirFiles /\
    Forall2 (entryAt w) dirFiles ps /\
    map slug ps = map (fun f => slugOf (name f)) dirFiles.
Proof.
  intros Hg; destruct (getPosts_fulfilled_inv _ _ _ Hg) as [dirFiles Hd].
  exists dirFiles; split; [exact Hd|].
  apply (getPosts_fulfilled _ _ _ _ Hd) in Hg.
  split; [exact Hg | eapply Forall2_entryAt_slugs; exact Hg].
Qed.

Lemma getPosts_order_witness :
  getPosts blogWorld [1%nat; 0%nat] =
    Fulfilled
      [helloEntry; entry "Rust" "2021-06-01T00:00:00.000Z" "rust"] /\
  exists dirFiles,
    blogDir blogWorld = Dir dirFiles /\
    Forall2 (entryAt blogWorld) dirFiles
      [helloEntry; entry "Rust" "2021-06-01T00:00:00.000Z" "rust"] /\
    map slug [helloEntry; entry "Rust" "2021-06-01T00:00:00.000Z" "rust"] =
    map (fun f => slugOf (name f)) dirFiles.
Proof.
  split; [reflexivity|].
  apply (getPosts_order blogWorld [1%nat; 0%nat]); reflexivity.
Defined.

(** C7. Two runs of [getPosts] against the same content store, whatever the
    order in which the imports settle in each, return the same index
    entries in the same order, or both fail. *)
Theorem getPosts_idempotent (w : World) (sched sched' : list nat) :
  valueOf (getPosts w sched) = valueOf (getPosts w sched') /\
  isRejected (getPosts w sched) = isRejected (getPosts w sched').
Proof.
  assert (H : valueOf (getPosts w sched) = valueOf (getPosts w sched')).
  { unfold getPosts; destruct (readdirSync (blogDir w)) as [dirFiles|e];
      simpl; [apply PromiseAll_valueOf | reflexivity]. }
  split; [exact H|].
  destruct (getPosts w sched), (getPosts w sched'); simpl in *;
    congruence.
Qed.

(** C8. On an empty blog directory [getPosts] is fulfilled with the empty
    sequence, and so is [getStaticProps]: nothing is rejected. *)
Theorem getPosts_empty (mods : str -> option Module) (sched : list nat) :
  getPosts {| blogDir := Dir []; modules := mods |} sched = Fulfilled [] /\
  getStaticProps {| blogDir := Dir []; modules := mods |} sched =
    Fulfilled {| posts := [] |}.
Proof.
  assert (H : getPosts {| blogDir := Dir []; modules := mods |} sched =
              Fulfilled []).
  { apply (getPosts_fulfilled _ _ []); [reflexivity | constructor]. }
  split; [exact H | unfold getStaticProps; rewrite H; reflexivity].
Qed.

(** C9. When nothing exists at the path of the blog directory [getPosts]
    rejects with the [ENOENT] error of [readdirSync], and when the directory
    may not be read, with its [EACCES] error; [getStaticProps] rejects with
    the same error, and no index entry is returned. *)
Theorem getPosts_readdir_failure (mods : str -> option Module)
    (sched : list nat) :
  let missing := {| blogDir := Missing; modules := mods |} in
  let unreadable := {| blogDir := Unreadable; modules := mods |} in
  getPosts missing sched = Rejected (FsError ENOENT) /\
  getStaticProps missing sched = Rejected (FsError ENOENT) /\
  getPosts unreadable sched = Rejected (FsError EACCES) /\
  getStaticProps unreadable sched = Rejected (FsError EACCES) /\
  valueOf (getPosts missing sched) = None /\
  valueOf (getPosts unreadable sched) = None.
Proof. repeat split. Qed.

(** * Further properties *)

(** ** The slug, in full *)

(** X1. The slug differs from the file name exactly when the name ends in a
    code unit that is no line terminator followed by [mdx]; a shorter name,
    or one with a line terminator there, is its own slug. *)
Theorem slugOf_changes_iff (fname : str) :
  slugOf fname <> fname <-> stripsSuffix fname = true.
Proof.
  rewrite slugOf_spec; destruct (stripsSuffix fname) eqn:E.
  - split; [reflexivity|]; intros _ H.
    apply stripsSuffix_iff in E; destruct E as [p [c [-> _]]].
    apply (f_equal (@length N)) in H; rewrite length_firstn, length_app in H.
    simpl in H; lia.
  - split; [intros H; exfalso; apply H; reflexivity | discriminate].
Qed.

(** X2. The slug is a prefix of the file name, and the name is either as
    long as the slug or four code units longer: nothing inside the name is
    ever touched, and nothing is added. *)
Theorem slugOf_is_prefix (fname : str) :
  slugOf fname = firstn (length (slugOf fname)) fname /\
  (length fname = length (slugOf fname) \/
   length fname = (length (slugOf fname) + 4)%nat).
Proof.
  destruct (stripsSuffix fname) eqn:E.
  - apply stripsSuffix_iff in E; destruct E as [p [c [-> Hc]]].
    rewrite (slugOf_strip p c Hc), length_app; simpl length.
    split; [|right; reflexivity].
    rewrite firstn_app, firstn_all, Nat.sub_diag; simpl.
    rewrite app_nil_r; reflexivity.
  - rewrite (slugOf_keep _ E).
    split; [rewrite firstn_all; reflexivity | left; reflexivity].
Qed.

(** X3. Slugs collide: a file whose name [s] is its own slug and the file
    [s.mdx] are two different names with the same slug. *)
Theorem slugOf_collision (s : str) :
  stripsSuffix s = false ->
  s ++ ext <> s /\ slugOf (s ++ ext) = slugOf s.
Proof.
  intros H; split.
  - intros E; apply (f_equal (@length N)) in E; rewrite length_app in E.
    simpl in E; lia.
  - rewrite (slugOf_keep s H); apply (slugOf_strip s 46); reflexivity.
Qed.

Lemma slugOf_collision_witness :
  stripsSuffix (lit "hello") = false /\
  lit "hello" ++ ext <> lit "hello" /\
  slugOf (lit "hello" ++ ext) = slugOf (lit "hello").
Proof.
  split; [reflexivity|].
  apply (slugOf_collision (lit "hello")); reflexivity.
Defined.

(** ** [getPosts], in full *)

(** X4. [getPosts] is fulfilled exactly when the blog directory can be
    listed and the import of every entry of the listing loads, whatever the
    order in which the imports settle. *)
Theorem getPosts_fulfilled_iff_loads (w : World) (sched : list nat) :
  isRejected (getPosts w sched) = false <->
  exists dirFiles,
    blogDir w = Dir dirFiles /\ existsb (importFails w) dirFiles = false.
Proof.
  split.
  - destruct (getPosts w sched) as [ps|e] eqn:Hg; [|discriminate].
    intros _; destruct (getPosts_fulfilled_inv _ _ _ Hg) as [dirFiles Hd].
    exists dirFiles; split; [exact Hd|].
    apply (getPosts_fulfilled _ _ _ _ Hd) in Hg.
    eapply Forall2_entryAt_loads; exact Hg.
  - intros [dirFiles [Hd Hx]].
    destruct (Forall2_entryAt_total _ _ Hx) as [ps Hps].
    apply (getPosts_fulfilled _ sched _ _ Hd) in Hps; rewrite Hps.
    reflexivity.
Qed.

(** X5. When the import that settles first is one that rejects, [getPosts]
    rejects with the error of that entry, whichever other imports fail. *)
Theorem getPosts_reports_first_settled (w : World) (sched : list nat)
    (dirFiles : list Dirent) (i : nat) (f : Dirent) :
  blogDir w = Dir dirFiles ->
  nth_error dirFiles i = Some f ->
  importFails w f = true ->
  getPosts w (i :: sched) = Rejected (ImportError (blogRequest (name f))).
Proof.
  intros Hd Hi Hf; rewrite (getPosts_Dir _ _ _ Hd).
  unfold PromiseAll; simpl firstRejected.
  rewrite nth_error_map, Hi; simpl.
  unfold importFails in Hf.
  destruct (modules w (blogRequest (name f))) eqn:E; [discriminate|].
  rewrite (postOf_failed _ _ E); reflexivity.
Qed.

Lemma getPosts_reports_first_settled_witness :
  blogDir unloadableWorld = Dir [file "a.mdx"; file "b.mdx"] /\
  nth_error [file "a.mdx"; file "b.mdx"] 1 = Some (file "b.mdx") /\
  importFails unloadableWorld (file "b.mdx") = true /\
  getPosts unloadableWorld [1%nat] =
    Rejected (ImportError (blogRequest (lit "b.mdx"))).
Proof.
  do 3 (split; [reflexivity|]).
  apply (getPosts_reports_first_settled unloadableWorld []
           [file "a.mdx"; file "b.mdx"] 1%nat (file "b.mdx")); reflexivity.
Defined.

(** X6. [getPosts] imports the requests of the listed entries and no other
    module: two module tables that agree on these requests give the same
    result. *)
Theorem getPosts_imports_listing_only (w w' : World) (sched : list nat)
    (dirFiles : list Dirent) :
  blogDir w = Dir dirFiles ->
  blogDir w' = Dir dirFiles ->
  (forall f, In f dirFiles ->
             modules w (blogRequest (name f)) =
             modules w' (blogRequest (name f))) ->
  getPosts w sched = getPosts w' sched.
Proof.
  intros Hd Hd' H; rewrite (getPosts_Dir _ _ _ Hd), (getPosts_Dir _ _ _ Hd').
  f_equal; apply map_ext_in; intros f Hf.
  unfold postOf, import; rewrite (H f Hf); reflexivity.
Qed.

Lemma getPosts_imports_listing_only_witness :
  blogDir blogWorld = Dir [file "hello.mdx"; file "rust.mdx"] /\
  blogDir widerWorld = Dir [file "hello.mdx"; file "rust.mdx"] /\
  modules blogWorld (blogRequest (lit "unlisted.mdx")) <>
  modules widerWorld (blogRequest (lit "unlisted.mdx")) /\
  getPosts blogWorld [] = getPosts widerWorld [].
Proof.
  do 2 (split; [reflexivity|]); split; [discriminate|].
  apply (getPosts_imports_listing_only blogWorld widerWorld []
           [file "hello.mdx"; file "rust.mdx"]); try reflexivity.
  intros f [<-|[<-|[]]]; reflexivity.
Defined.

(** ** The index page *)

Lemma Index_throws (fmt : str -> str) (l : list Post) :
  forallb hasMeta l = false ->
  mapRender (postLink fmt) l = TypeError (lit "title").
Proof.
  induction l as [|p l IH]; simpl; [discriminate|].
  unfold postLink at 1, hasMeta at 1; destruct (meta p) as [mt|]; simpl;
    [|reflexivity].
  intros H; rewrite (IH H); reflexivity.
Qed.

Lemma Index_links (fmt : str -> str) (l : list Post) :
  forallb hasMeta l = true ->
  exists links,
    mapRender (postLink fmt) l = Rendered links /\
    map linkKey links = map slug l /\
    map linkHref links = map (fun p => hrefPrefix ++ slug p) l /\
    map (fun k => Some (linkTitle k)) links =
      map (fun p => option_map title (meta p)) l /\
    map (fun k => Some (linkDate k)) links =
      map (fun p => option_map (fun mt => fmt (date mt)) (meta p)) l.
Proof.
  induction l as [|p l IH]; simpl.
  - intros _; exists []; repeat split.
  - unfold postLink at 1, hasMeta at 1; destruct (meta p) as [mt|] eqn:E;
      simpl; [|discriminate].
    intros H; destruct (IH H) as [links [-> [Hk [Hh [Ht Hd]]]]].
    eexists; split; [reflexivity|]; simpl.
    rewrite Hk, Hh, Ht, Hd; repeat split.
Qed.

(** X7. [Index] renders exactly when every post of its props has a [meta]:
    then the list has one link per post in the order of the posts, with the
    slug as key, [/blog/] followed by the slug as href, and the title and
    the date text of the post; with a post without [meta] the render throws
    the [TypeError] of reading [title] of [undefined]. *)
Theorem Index_render (fmt : str -> str) (props : Props) :
  if forallb hasMeta (posts props)
  then exists links,
         Index fmt props = Rendered links /\
         map linkKey links = map slug (posts props) /\
         map linkHref links =
           map (fun p => hrefPrefix ++ slug p) (posts props) /\
         map (fun k => Some (linkTitle k)) links =
           map (fun p => option_map title (meta p)) (posts props) /\
         map (fun k => Some (linkDate k)) links =
           map (fun p => option_map (fun mt => fmt (date mt)) (meta p))
               (posts props)
  else Index fmt props = TypeError (lit "title").
Proof.
  unfold Index; destruct (forallb hasMeta (posts props)) eqn:E.
  - apply Index_links; exact E.
  - apply Index_throws; exact E.
Qed.

Lemma validEntryAt_hasMeta (w : World) (dirFiles : list Dirent)
    (ps : list Post) :
  Forall2 (validEntryAt w) dirFiles ps ->
  forallb hasMeta ps = true /\
  map slug ps = map (fun f => slugOf (name f)) dirFiles.
Proof.
  induction 1 as [|f p l ps [mt [_ ->]] _ [IH1 IH2]]; simpl;
    [split; reflexivity|].
  rewrite IH2; split; [exact IH1 | reflexivity].
Qed.

(** X8. For a blog directory whose entries are all valid Documents, the
    index page built from the props of [getStaticProps] lists one link per
    directory entry, in the order of the listing, and the link of the entry
    [name] leads to [/blog/] followed by the slug of [name]. *)
Theorem index_page_links (w : World) (sched : list nat) (fmt : str -> str)
    (dirFiles : list Dirent) :
  blogDir w = Dir dirFiles ->
  forallb (isValidDocument w) dirFiles = true ->
  exists props links,
    getStaticProps w sched = Fulfilled props /\
    Index fmt props = Rendered links /\
    length links = length dirFiles /\
    map linkHref links =
      map (fun f => hrefPrefix ++ slugOf (name f)) dirFiles.
Proof.
  intros Hd Hv; destruct (Forall2_validEntryAt_total _ _ Hv) as [ps Hps].
  assert (Hg : getPosts w sched = Fulfilled ps).
  { apply (getPosts_fulfilled _ _ _ _ Hd).
    eapply Forall2_impl; [|exact Hps]; apply validEntryAt_entryAt. }
  destruct (validEntryAt_hasMeta _ _ _ Hps) as [Hm Hs].
  destruct (Index_links fmt ps Hm) as [links [Hr [_ [Hh _]]]].
  exists {| posts := ps |}, links; split.
  { unfold getStaticProps; rewrite Hg; reflexivity. }
  split; [exact Hr|]; split.
  - rewrite <- (length_map linkHref), Hh, length_map.
    symmetry; eapply Forall2_length; exact Hps.
  - rewrite Hh, <- (map_map slug (fun s => hrefPrefix ++ s)), Hs, map_map.
    reflexivity.
Qed.

Lemma index_page_links_witness :
  blogDir blogWorld = Dir [file "hello.mdx"; file "rust.mdx"] /\
  forallb (isValidDocument blogWorld) [file "hello.mdx"; file "rust.mdx"]
    = true /\
  exists props links,
    getStaticProps blogWorld [1%nat] = Fulfilled props /\
    Index rawDate props = Rendered links /\
    length links = 2%nat /\
    map linkHref links =
      map (fun f => hrefPrefix ++ slugOf (name f))
          [file "hello.mdx"; file "rust.mdx"].
Proof.
  do 2 (split; [reflexivity|]).
  apply (index_page_links blogWorld [1%nat] rawDate
           [file "hello.mdx"; file "rust.mdx"]); reflexivity.
Defined.

(** ** The layout *)

Lemma layoutMeta_get (pageMeta : option obj) (k : str) (d : value) :
  setProp kDescription defaultDescription
    (setProp kTitle defaultTitle emptyObj) k = Some d ->
  getProp (layoutMeta pageMeta) k =
  match pageMeta with
  | Some p => match p k with Some v => v | None => d end
  | None => d
  end.
Proof.
  intros H; unfold getProp, layoutMeta, spread.
  destruct pageMeta as [p|]; [destruct (p k)|]; try rewrite H; reflexivity.
Qed.

(** X9. In the head that [Layout] renders, the page's own [title] (even an
    [undefined] one) replaces the default title and its own [description]
    the default description, each on its own: the four tags that carry the
    title agree, the three that carry the description agree, and a key the
    page does not set keeps its default. *)
Theorem LayoutHead_meta (theme : str) (pageMeta : option obj) :
  let pick k d :=
    match pageMeta with
    | Some p => match p k with Some v => v | None => d end
    | None => d
    end in
  let h := LayoutHead theme pageMeta in
  headTitle h = pick kTitle defaultTitle /\
  ogSiteName h = pick kTitle defaultTitle /\
  ogTitle h = pick kTitle defaultTitle /\
  twitterTitle h = pick kTitle defaultTitle /\
  metaDescription h = pick kDescription defaultDescription /\
  ogDescription h = pick kDescription defaultDescription /\
  twitterDescription h = pick kDescription defaultDescription.
Proof.
  intros pick h; unfold h, LayoutHead; simpl.
  rewrite (layoutMeta_get pageMeta kTitle defaultTitle) by reflexivity.
  rewrite (layoutMeta_get pageMeta kDescription defaultDescription)
    by reflexivity.
  repeat split.
Qed.

Lemma fold_onChange_option (events : list str) (init : str) :
  In init themeOptions ->
  Forall (fun v => In v themeOptions) events ->
  In (fold_left onChange events init) themeOptions.
Proof.
  intros Hi H; revert init Hi.
  induction H as [|v l Hv _ IH]; intros init Hi; simpl; [exact Hi|].
  apply IH; exact Hv.
Qed.

Lemma themeHref_preloaded (theme : str) :
  In theme themeOptions -> In (themeHref theme) preloadHrefs.
Proof.
  intros [<-|[<-|[<-|[<-|[]]]]]; cbv; tauto.
Qed.

(** X10. Whatever sequence of values the theme [<select>] reports, as long
    as each is the value of one of its options, the theme is one of the
    four options and the stylesheet that [Layout] links is one of the
    stylesheets it preloads. *)
Theorem Layout_stylesheet_preloaded (events : list str)
    (pageMeta : option obj) :
  Forall (fun v => In v themeOptions) events ->
  In (themeAfter events) themeOptions /\
  In (stylesheet (LayoutHead (themeAfter events) pageMeta))
     (preloads (LayoutHead (themeAfter events) pageMeta)).
Proof.
  intros H.
  assert (Ht : In (themeAfter events) themeOptions).
  { apply fold_onChange_option; [left; reflexivity | exact H]. }
  split; [exact Ht | apply themeHref_preloaded; exact Ht].
Qed.

Lemma Layout_stylesheet_preloaded_witness :
  Forall (fun v => In v themeOptions) [lit "coy"; lit "funky"] /\
  In (themeAfter [lit "coy"; lit "funky"]) themeOptions /\
  In (stylesheet (LayoutHead (themeAfter [lit "coy"; lit "funky"])
                             (Some titleOnly)))
     (preloads (LayoutHead (themeAfter [lit "coy"; lit "funky"])
                           (Some titleOnly))).
Proof.
  assert (H : Forall (fun v => In v themeOptions) [lit "coy"; lit "funky"]).
  { repeat constructor; cbv; tauto. }
  split; [exact H|].
  apply (Layout_stylesheet_preloaded [lit "coy"; lit "funky"]
           (Some titleOnly) H).
Defined.

(** ** The application shell *)

(** X11. The [Image] element of [ResponsiveImage] has no prop under the
    keys [key], [ref], [__self] and [__source], which the JSX runtime keeps
    for itself.  Every other prop it is given is a prop of the element,
    unchanged, a [layout] of the caller included; only without one the
    layout is [responsive]; [alt] is always set, to the caller's [alt] or
    to [undefined]; and no other prop is added. *)
Theorem ResponsiveImage_props (props : obj) (k : str) :
  ResponsiveImage props k =
  if isReservedKey k then None
  else match props k with
       | Some v => Some v
       | None =>
           if str_eqb kLayout k then Some (VString (lit "responsive"))
           else if str_eqb kAlt k then Some VUndefined
           else None
       end.
Proof.
  unfold ResponsiveImage, elementProps.
  destruct (isReservedKey k); [reflexivity|].
  unfold imageAttributes, spread, setProp, emptyObj.
  destruct (props k) as [v|] eqn:E; [reflexivity|].
  destruct (str_eqb kLayout k); [reflexivity|].
  destruct (str_eqb kAlt k) eqn:Ek; [|reflexivity].
  apply str_eqb_eq in Ek; subst k; unfold getProp; rewrite E; reflexivity.
Qed.

Example ResponsiveImage_fixed :
  getProp (ResponsiveImage fixedImage) kLayout = VString (lit "fixed") /\
  getProp (ResponsiveImage fixedImage) (lit "src") =
    VString (lit "/assets/trace.png") /\
  ResponsiveImage fixedImage kAlt = Some VUndefined.
Proof. repeat split. Qed.

Example ResponsiveImage_keyed :
  keyedImage (lit "key") = Some (VString (lit "k1")) /\
  ResponsiveImage keyedImage (lit "key") = None /\
  ResponsiveImage keyedImage (lit "ref") = None /\
  ResponsiveImage keyedImage kLayout = Some (VString (lit "fixed")).
Proof. repeat split. Qed.

(** ** The MDX loader pattern *)

Lemma str_eqb_sym (s t : str) : str_eqb s t = str_eqb t s.
Proof.
  destruct (str_eqb s t) eqn:E.
  - apply str_eqb_eq in E; subst; symmetry; apply str_eqb_refl.
  - destruct (str_eqb t s) eqn:E'; [|reflexivity].
    apply str_eqb_eq in E'; subst; rewrite str_eqb_refl in E; discriminate.
Qed.

Lemma endsWith_iff (s suffix : str) :
  endsWith s suffix = true <-> exists p, s = p ++ suffix.
Proof.
  split.
  - intros H; eexists; apply endsWith_split; exact H.
  - intros [p ->]; apply endsWith_app.
Qed.

Lemma endsWith_cons (a : N) (s suffix : str) :
  endsWith (a :: s) suffix = str_eqb (a :: s) suffix || endsWith s suffix.
Proof.
  apply eq_true_iff_eq.
  rewrite orb_true_iff, str_eqb_eq, !endsWith_iff; split.
  - intros [[|b p] H]; [left; exact H|].
    injection H as -> ->; right; exists p; reflexivity.
  - intros [->|[p ->]]; [exists []; reflexivity|].
    exists (a :: p); reflexivity.
Qed.

Lemma endsWith_nil (suffix : str) : endsWith [] suffix = str_eqb [] suffix.
Proof. destruct suffix; reflexivity. Qed.

(** At one position the pattern matches [.md] or [.mdx], up to the end of
    the input, and nothing else. *)
Lemma matchItems_mdxExtension (s : str) :
  matchItems mdxExtension s = str_eqb s extMd || str_eqb s ext.
Proof.
  unfold mdxExtension, extMd, ext.
  destruct s as [|a [|b [|c [|d [|e s]]]]]; simpl;
    repeat match goal with
           | |- context [N.eqb ?x ?y] =>
               destruct (N.eqb_spec x y); subst; simpl
           end; try reflexivity; try discriminate.
Qed.

(** X12. The pattern [/\.mdx?$/] of the MDX loader accepts exactly the
    strings that end in [.md] or in [.mdx]. *)
Theorem test_mdxExtension (s : str) :
  test mdxExtension s = endsWith s extMd || endsWith s ext.
Proof.
  induction s as [|a s IH].
  - reflexivity.
  - cbn [test]; rewrite IH, matchItems_mdxExtension, !endsWith_cons.
    destruct (str_eqb (a :: s) extMd), (str_eqb (a :: s) ext),
      (endsWith s extMd), (endsWith s ext); reflexivity.
Qed.

(** X13. A file name that ends in [.md] is one the MDX loader accepts, and
    its slug is the whole name, extension included; a name that ends in
    [.mdx] is accepted too, and its slug has lost the extension. *)
Theorem md_slug_keeps_extension (stem : str) :
  test mdxExtension (stem ++ extMd) = true /\
  slugOf (stem ++ extMd) = stem ++ extMd /\
  test mdxExtension (stem ++ ext) = true /\
  slugOf (stem ++ ext) = stem.
Proof.
  rewrite !test_mdxExtension, !endsWith_app, orb_true_r; simpl orb.
  split; [reflexivity|]; split; [|split; [reflexivity|]].
  - apply slugOf_keep; unfold stripsSuffix, extMd.
    rewrite rev_app_distr; simpl; destruct (rev stem); reflexivity.
  - apply (slugOf_strip stem 46); reflexivity.
Qed.
